(** * OrbitFS: the store adapter and its dirty-buffer file object

    A shallow embedding of [src/backend/OrbitFS.ts].  The adapter is written
    in continuation-passing style in the source (every operation takes a
    completion callback); the embedding keeps that shape.  A run of an
    operation is the ordered trace of what it does to the outside world:
    the calls it issues against the store (or against the file writer) and
    the invocations of the caller's completion callback.

    The store ([this._fs], an [orbitfs]), the [async] library's [wrapSync]
    and the DOM file writer are external collaborators.  They are taken as
    parameters: a store is given by what each wrapped primitive hands to
    its completion, a writer by the sequence of events it fires. *)

From Stdlib Require Import String List NArith PeanoNat.
Import ListNotations.
Local Open Scope string_scope.
Local Open Scope list_scope.

(** ** JavaScript values that cross the adapter *)

Module Js.

(** The values that appear in an error slot or as a store binding.
    TypeScript's annotations are erased at run time, so the tests the
    source performs on them ([if (err)], [e ? .. : ..]) are truthiness
    tests on these values. *)
Inductive JsVal : Type :=
| JsUndefined
| JsNull
| JsString (s : string)
| JsErrorObj (message : string)
| JsStore (address : string).

Definition truthy (v : JsVal) : bool :=
  match v with
  | JsUndefined => false
  | JsNull => false
  | JsString s => negb (String.eqb s "")
  | JsErrorObj _ => true
  | JsStore _ => true
  end.

End Js.
Import Js.

(** ** Error taxonomy *)

Module Api.

Inductive ErrorCode : Type := ENOENT | ENOTDIR | ENOTEMPTY | EIO.

(** Modelled from the spec: [ApiError] of [core/api_error], an error kind
    of the closed taxonomy carrying the offending path or message.  The
    static constructors [ApiError.ENOENT], [ApiError.ENOTDIR] and
    [ApiError.ENOTEMPTY] used by the adapter build one from their
    argument. *)
Record ApiError : Type := mkApiError { errno : ErrorCode; epath : JsVal }.

Definition mkENOENT (p : JsVal) : ApiError := mkApiError ENOENT p.
Definition mkENOTDIR (p : JsVal) : ApiError := mkApiError ENOTDIR p.
Definition mkENOTEMPTY (p : JsVal) : ApiError := mkApiError ENOTEMPTY p.

End Api.
Import Api.

(** ** Stat records *)

Inductive FileType : Type := FILE | DIRECTORY.

(** [new Stats(itemType, size)]. *)
Record Stats : Type := mkStats { st_type : FileType; st_size : N }.

(** The store's answer to [stat]: [res.type], [res.size], [res.blocks]. *)
Record StatInfo : Type := mkStatInfo { si_type : string; si_size : N; si_blocks : N }.

(** ** Callbacks and traces *)

(** What a completion callback receives in its error position: an
    [ApiError] built by the adapter, or whatever value the store handed
    over.  [cb()] is [ErrVal JsUndefined], [cb(null, x)] is [ErrVal JsNull]. *)
Inductive ErrArg : Type :=
| ErrApi (e : ApiError)
| ErrVal (v : JsVal).

(** [if (e)] on an error argument: an [ApiError] is an object. *)
Definition is_error (e : ErrArg) : bool :=
  match e with
  | ErrApi _ => true
  | ErrVal v => truthy v
  end.

(** The instance record: [address], [permissions] and the store binding
    [_fs], which the constructor leaves unset. *)
Record OrbitFS : Type := mkOrbitFS {
  address : string;
  permissions : list string;
  _fs : JsVal
}.

(** What a completion callback receives in its result position. *)
Inductive CbRes : Type :=
| RNone
| RStats (s : Stats)
| RNames (l : list string)
| RInstance (fs : OrbitFS).

Inductive Event : Type :=
| StoreLs (p : string)
| StoreStat (p : string)
| StoreMkdir (p : string)
| StoreMv (oldPath newPath : string)
| StoreRm (paths : list string) (recursive : bool)
| StoreEmpty
| StoreCreate (addr : string) (perms : list string)
| StoreCreateDefault
| WriterCreate
| WriterWrite (blob : list Byte.byte)
| WriterTruncate (len : N)
| Cb (e : ErrArg) (r : CbRes)
| Uncaught.

Definition Trace : Type := list Event.

(** [BFSOneArgCallback] and [BFSCallback<T>], as continuations. *)
Definition BFSOneArgCallback : Type := ErrArg -> Trace.
Definition BFSCallback (T : Type) : Type := ErrArg -> option T -> Trace.

(** The caller's own callbacks: each invocation is recorded. *)
Definition user_cb : BFSOneArgCallback := fun e => [Cb e RNone].
Definition user_cb_stats : BFSCallback Stats :=
  fun e r => [Cb e (match r with Some s => RStats s | None => RNone end)].
Definition user_cb_names : BFSCallback (list string) :=
  fun e r => [Cb e (match r with Some l => RNames l | None => RNone end)].
Definition user_cb_instance : BFSCallback OrbitFS :=
  fun e r => [Cb e (match r with Some fs => RInstance fs | None => RNone end)].

Definition is_cb (ev : Event) : bool :=
  match ev with Cb _ _ => true | _ => false end.

Definition is_rm (ev : Event) : bool :=
  match ev with StoreRm _ _ => true | _ => false end.

(** The calls that change the store. *)
Definition is_mutation (ev : Event) : bool :=
  match ev with
  | StoreMkdir _ | StoreMv _ _ | StoreRm _ _ | StoreEmpty => true
  | WriterWrite _ | WriterTruncate _ => true
  | _ => false
  end.

Definition is_store_call (ev : Event) : bool :=
  match ev with
  | Cb _ _ | Uncaught => false
  | _ => true
  end.

Definition count_cb (t : Trace) : nat := length (filter is_cb t).
Definition count_rm (t : Trace) : nat := length (filter is_rm t).
Definition store_calls (t : Trace) : Trace := filter is_store_call t.

(** ** The store, as the adapter sees it *)

(** What a wrapped primitive hands to its completion: [(err, res)].  The
    store completes each call once (its completions are single-shot), so
    a call is described by that one pair. *)
Record Completion (A : Type) : Type := mkCompletion { c_err : JsVal; c_res : option A }.
Arguments mkCompletion {A} _ _.
Arguments c_err {A} _.
Arguments c_res {A} _.

(** The promise returned by the store's [rm]. *)
Inductive RmOutcome : Type :=
| RmResolved (v : JsVal)
| RmRejected (reason : JsVal).

Record Store : Type := mkStore {
  store_ls : string -> Completion (list string);
  store_stat : string -> Completion StatInfo;
  store_mkdir : string -> Completion unit;
  store_mv : string -> string -> Completion unit;
  store_rm : list string -> bool -> RmOutcome;
  store_empty : Completion unit
}.

(** ** The adapter's operations *)

Section Adapter.

Variable store : Store.

Definition empty (mainCb : BFSOneArgCallback) : Trace :=
  StoreEmpty :: mainCb (ErrVal (c_err (store_empty store))).

Definition rename (oldPath newPath : string) (cb : BFSOneArgCallback) : Trace :=
  StoreMv oldPath newPath :: cb (ErrVal (c_err (store_mv store oldPath newPath))).

Definition stat (path : string) (isLstat : bool) (cb : BFSCallback Stats) : Trace :=
  StoreStat path ::
  (let c := store_stat store path in
   if truthy (c_err c) then cb (ErrApi (mkENOENT (c_err c))) None
   else match c_res c with
        | None => [Uncaught]
        | Some res =>
            if String.eqb (si_type res) "file" then
              cb (ErrVal JsNull) (Some (mkStats FILE (si_size res)))
            else if String.eqb (si_type res) "directory" then
              cb (ErrVal JsNull) (Some (mkStats DIRECTORY (si_blocks res)))
            else cb (ErrApi (mkENOENT (JsString path))) None
        end).

Definition _remove (path : string) (cb : BFSOneArgCallback) (isFile : bool) : Trace :=
  let recursive := isFile in
  StoreRm [path] recursive ::
  match store_rm store [path] recursive with
  | RmResolved err => if truthy err then cb (ErrVal err) else []
  | RmRejected _ => []
  end.

Definition unlink (path : string) (cb : BFSOneArgCallback) : Trace :=
  _remove path cb true.

Definition readdir (path : string) (cb : BFSCallback (list string)) : Trace :=
  StoreLs path ::
  (let c := store_ls store path in
   if truthy (c_err c) then cb (ErrApi (mkENOTDIR (c_err c))) None
   else cb (ErrVal JsNull) (c_res c)).

Definition rmdir (path : string) (cb : BFSOneArgCallback) : Trace :=
  readdir path (fun e files =>
    if is_error e then cb e
    else match files with
         | None => [Uncaught]
         | Some l =>
             if Nat.ltb 0 (length l) then cb (ErrApi (mkENOTEMPTY (JsString path)))
             else _remove path cb false
         end).

Definition mkdir (path : string) (_mode : N) (cb : BFSOneArgCallback) : Trace :=
  StoreMkdir path :: cb (ErrVal (c_err (store_mkdir store path))).

End Adapter.

(** ** The dirty-buffer file object *)

Module File.

(** Modelled from the spec: the fields of [PreloadFile] of
    [generic/preload_file] that [OrbitFSFile] reads and writes: the path,
    the full in-memory content and the dirty flag. *)
Record OrbitFSFile : Type := mkFile {
  _path : string;
  _buffer : list Byte.byte;
  _dirty : bool
}.

(** Modelled from the spec: [PreloadFile]'s accessors. *)
Definition isDirty (f : OrbitFSFile) : bool := _dirty f.
Definition getBuffer (f : OrbitFSFile) : list Byte.byte := _buffer f.
Definition resetDirty (f : OrbitFSFile) : OrbitFSFile :=
  mkFile (_path f) (_buffer f) false.

(** The events a file writer fires, in order, with the argument handed
    to the handler. *)
Inductive WriterEvent : Type :=
| EvWriteEnd (arg : JsVal)
| EvError (err : JsVal).

(** [this._entry.createWriter(successCallback)]: the entry hands over a
    writer, which then fires its events, or it never calls back. *)
Inductive EntryBehaviour : Type :=
| NoWriter
| Writer (events : list WriterEvent).

(** The handler slots of the writer: installed or [null]. *)
Record Handlers : Type := mkHandlers { onwriteend : bool; onerror : bool }.

(** The two handlers [sync] installs, run against the writer's events.
    [onwriteend] clears both slots, truncates, resets the dirty flag and
    completes; [onerror] completes with the error. *)
Fixpoint dispatch (len : N) (cb : BFSOneArgCallback) (hs : Handlers)
         (f : OrbitFSFile) (evs : list WriterEvent) : OrbitFSFile * Trace :=
  match evs with
  | [] => (f, [])
  | EvWriteEnd _ :: rest =>
      if onwriteend hs then
        let (f', t) := dispatch len cb (mkHandlers false false) (resetDirty f) rest in
        (f', WriterTruncate len :: cb (ErrVal JsUndefined) ++ t)
      else dispatch len cb hs f rest
  | EvError err :: rest =>
      if onerror hs then
        let (f', t) := dispatch len cb hs f rest in
        (f', cb (ErrVal err) ++ t)
      else dispatch len cb hs f rest
  end.

Definition sync (f : OrbitFSFile) (w : EntryBehaviour) (cb : BFSOneArgCallback)
  : OrbitFSFile * Trace :=
  if negb (isDirty f) then (f, cb (ErrVal JsUndefined))
  else match w with
       | NoWriter => (f, [WriterCreate])
       | Writer evs =>
           let blob := getBuffer f in
           let len := N.of_nat (List.length blob) in
           let (f', t) := dispatch len cb (mkHandlers true true) f evs in
           (f', WriterCreate :: WriterWrite blob :: t)
       end.

Definition close (f : OrbitFSFile) (w : EntryBehaviour) (cb : BFSOneArgCallback)
  : OrbitFSFile * Trace :=
  sync f w cb.

(** The callback of a further call on the handle receives an error. *)
Definition call_is_error (t : Trace) : Prop :=
  exists e r, In (Cb e r) t /\ is_error e = true.

(** The handle that [close] leaves behind is in a terminal state: every
    further call on it is an error. *)
Definition closed_after_close (f : OrbitFSFile) (w : EntryBehaviour) : Prop :=
  forall w', call_is_error (snd (sync (fst (close f w user_cb)) w' user_cb)) /\
             call_is_error (snd (close (fst (close f w user_cb)) w' user_cb)).

End File.

(** ** Two-phase construction *)

Module Construct.

Record OrbitFSOptions : Type := mkOptions {
  opt_address : option string;
  opt_permissions : option (list string)
}.

Definition Name : string := "OrbitFS".

(** [opts.address || ""] and [opts.permissions || ["*"]]. *)
Definition new_OrbitFS (opts : OrbitFSOptions) : OrbitFS :=
  mkOrbitFS
    (match opt_address opts with
     | Some a => if truthy (JsString a) then a else ""
     | None => ""
     end)
    (match opt_permissions opts with
     | Some l => l
     | None => ["*"]
     end)
    JsUndefined.

Definition set_fs (this : OrbitFS) (v : JsVal) : OrbitFS :=
  mkOrbitFS (address this) (permissions this) v.

(** What the wrapped [orbitfs.create] / [orbitfs.createDefault] does with
    the completion it is given: it throws before returning, or it calls
    the completion, whose first parameter the source binds. *)
Inductive BindOutcome : Type :=
| BindThrows (err : JsVal)
| BindCalls (first : JsVal).

(** The instance is an object shared by reference between the factory
    and the completion closures: a completion is given the state of
    that object at the time it runs. *)
Definition _allocate (this : OrbitFS) (o : BindOutcome)
           (cb : OrbitFS -> ErrArg -> Trace) : Trace :=
  StoreCreate (address this) (permissions this) ::
  match o with
  | BindCalls res => cb (set_fs this res) (ErrVal JsUndefined)
  | BindThrows err => cb this (ErrVal err)
  end.

Definition Create (opts : OrbitFSOptions) (o : BindOutcome)
           (cb : BFSCallback OrbitFS) : Trace :=
  let fs := new_OrbitFS opts in
  _allocate fs o (fun fs' e =>
    if is_error e then cb e None else cb (ErrVal JsNull) (Some fs')).

Definition CreateDefault (o : BindOutcome) (cb : BFSCallback OrbitFS) : Trace :=
  let fs := new_OrbitFS (mkOptions None None) in
  StoreCreateDefault ::
  match o with
  | BindCalls v => cb (ErrVal JsNull) (Some (set_fs fs v))
  | BindThrows _ => [Uncaught]
  end.

(** An instance one can issue filesystem calls against: its [_fs] is a
    live store. *)
Definition usable (fs : OrbitFS) : bool :=
  match _fs fs with
  | JsStore _ => true
  | _ => false
  end.

(** Phase 2 failed: the wrapped call threw, or what it handed to the
    completion is not a store. *)
Definition binding_failed (o : BindOutcome) : bool :=
  match o with
  | BindThrows _ => true
  | BindCalls (JsStore _) => false
  | BindCalls _ => true
  end.

Definition error_delivered (t : Trace) : bool :=
  existsb (fun ev => match ev with Cb e _ => is_error e | _ => false end) t.

Definition instance_delivered (t : Trace) : bool :=
  existsb (fun ev => match ev with Cb _ (RInstance _) => true | _ => false end) t.

End Construct.

(** ** Observations on traces *)

(** The errors a run delivered to the caller, in order. *)
Definition delivered_errors (t : Trace) : list ErrArg :=
  flat_map (fun ev => match ev with
                      | Cb e _ => if is_error e then [e] else []
                      | _ => []
                      end) t.

(** The taxonomy kind of a delivered error; a value that is not an
    [ApiError] has none. *)
Definition error_kind (e : ErrArg) : option ErrorCode :=
  match e with
  | ErrApi a => Some (errno a)
  | ErrVal _ => None
  end.

Definition is_write (ev : Event) : bool :=
  match ev with WriterWrite _ => true | _ => false end.

Definition count_write (t : Trace) : nat := length (filter is_write t).

(** ** Concrete collaborators used to run the model *)

Module Sample.

Definition ok {A : Type} (a : A) : Completion A := mkCompletion JsNull (Some a).
Definition failed {A : Type} (msg : string) : Completion A :=
  mkCompletion (JsString msg) None.

(** A store holding the directory [/a] with the single entry [b], an
    empty directory, and the file [/f]; its primitives succeed. *)
Definition tree : Store :=
  mkStore
    (fun p => if String.eqb p "/a" then ok ["b"]
              else if String.eqb p "/a/b" then ok []
              else failed "file does not exist")
    (fun p => if String.eqb p "/a" then ok (mkStatInfo "directory" 0 1)
              else if String.eqb p "/a/b" then ok (mkStatInfo "directory" 0 0)
              else if String.eqb p "/f" then ok (mkStatInfo "file" 3 1)
              else failed "file does not exist")
    (fun _ => ok tt)
    (fun _ _ => ok tt)
    (fun _ _ => RmResolved JsUndefined)
    (ok tt).

(** The same listing over a store whose mutating primitives fail. *)
Definition failing : Store :=
  mkStore
    (store_ls tree)
    (store_stat tree)
    (fun _ => failed "file already exists")
    (fun _ _ => failed "file does not exist")
    (fun _ _ => RmResolved (JsErrorObj "file does not exist"))
    (failed "store unavailable").

Definition bytes3 : list Byte.byte := [Byte.x68; Byte.x69; Byte.x0a].

Definition clean_file : File.OrbitFSFile := File.mkFile "/f" bytes3 false.
Definition dirty_file : File.OrbitFSFile := File.mkFile "/f" bytes3 true.

End Sample.

(** ** Observations on the writer's events *)

Module Observe.
Import File.

Definition is_writeend (ev : WriterEvent) : bool :=
  match ev with
  | EvWriteEnd _ => true
  | EvError _ => false
  end.

(** The errors the writer fires before its first [writeend]. *)
Fixpoint errors_before_writeend (evs : list WriterEvent) : list JsVal :=
  match evs with
  | [] => []
  | EvWriteEnd _ :: _ => []
  | EvError err :: rest => err :: errors_before_writeend rest
  end.

Definition is_truncate (ev : Event) : bool :=
  match ev with WriterTruncate _ => true | _ => false end.

End Observe.

(** ** The backend factories *)

Module Registry.
Import Construct.

(** [(name: string, objs: FileSystem[]) => void].  The annotation is
    erased at run time: an element of [objs] may be [undefined]. *)
Definition FactoryCallback : Type := string -> list (option OrbitFS) -> Trace.

(** [OrbitFS.Factory]: the error position of [CreateDefault]'s completion
    is dropped. *)
Definition Factory (o : BindOutcome) (cb : FactoryCallback) : Trace :=
  CreateDefault o (fun _err res => cb Name [res]).

(** [OrbitFSFactory] of [src/unnamed/part_000]. *)
Definition OrbitFSFactory (o : BindOutcome) (cb : FactoryCallback) : Trace :=
  Factory o cb.




End Registry.

(** ** A store that completes without error and without result *)

Module Silent.

Definition nothing {A : Type} : Completion A := mkCompletion (JsString "") None.

Definition silent : Store :=
  mkStore
    (fun _ => nothing)
    (fun _ => nothing)
    (fun _ => nothing)
    (fun _ _ => nothing)
    (fun _ _ => RmRejected (JsErrorObj "file does not exist"))
    nothing.

End Silent.

(** * Properties of the adapter *)

Section AdapterFacts.

Variable store : Store.

Lemma readdir_failed (path : string) (cb : BFSCallback (list string)) :
  truthy (c_err (store_ls store path)) = true ->
  readdir store path cb
  = StoreLs path :: cb (ErrApi (mkENOTDIR (c_err (store_ls store path)))) None.
Proof.
  intros H. unfold readdir. cbv zeta. rewrite H. reflexivity.
Qed.

Lemma readdir_listed (path : string) (cb : BFSCallback (list string)) :
  truthy (c_err (store_ls store path)) = false ->
  readdir store path cb
  = StoreLs path :: cb (ErrVal JsNull) (c_res (store_ls store path)).
Proof.
  intros H. unfold readdir. cbv zeta. rewrite H. reflexivity.
Qed.

Lemma rmdir_starts_with_ls (path : string) (cb : BFSOneArgCallback) :
  exists t, rmdir store path cb = StoreLs path :: t.
Proof.
  unfold rmdir, readdir. eexists. reflexivity.
Qed.

Lemma rmdir_nonempty (path : string) (cb : BFSOneArgCallback) (l : list string) :
  truthy (c_err (store_ls store path)) = false ->
  c_res (store_ls store path) = Some l ->
  l <> [] ->
  rmdir store path cb
  = StoreLs path :: cb (ErrApi (mkENOTEMPTY (JsString path))).
Proof.
  intros Herr Hres Hne. unfold rmdir.
  rewrite (readdir_listed _ _ Herr), Hres. cbn [is_error truthy].
  destruct l as [|x l']; [congruence|]. reflexivity.
Qed.

Lemma rmdir_empty_listing (path : string) (cb : BFSOneArgCallback) :
  truthy (c_err (store_ls store path)) = false ->
  c_res (store_ls store path) = Some [] ->
  rmdir store path cb = StoreLs path :: _remove store path cb false.
Proof.
  intros Herr Hres. unfold rmdir.
  rewrite (readdir_listed _ _ Herr), Hres. reflexivity.
Qed.

Lemma rmdir_failed_listing (path : string) (cb : BFSOneArgCallback) :
  truthy (c_err (store_ls store path)) = true ->
  rmdir store path cb
  = StoreLs path :: cb (ErrApi (mkENOTDIR (c_err (store_ls store path)))).
Proof.
  intros Herr. unfold rmdir. rewrite (readdir_failed _ _ Herr). reflexivity.
Qed.

Lemma remove_cb_count (path : string) (isFile : bool) :
  count_cb (_remove store path user_cb isFile)
  = match store_rm store [path] isFile with
    | RmResolved v => if truthy v then 1 else 0
    | RmRejected _ => 0
    end.
Proof.
  unfold _remove. cbv zeta.
  destruct (store_rm store [path] isFile) as [v|r]; [destruct (truthy v)|]; reflexivity.
Qed.

End AdapterFacts.

(** C2: [rmdir(P)] lists [P] before anything else; on a listing with at
    least one entry it completes with the not-empty error, and the listing
    is the only call it issued against the store (no removal, no other
    mutation); a removal call appears in a run of [rmdir] only when the
    listing succeeded and is empty. *)
Theorem rmdir_checks_emptiness_before_removal (store : Store) (P : string) :
  hd_error (rmdir store P user_cb) = Some (StoreLs P) /\
  (forall l,
      truthy (c_err (store_ls store P)) = false ->
      c_res (store_ls store P) = Some l ->
      l <> [] ->
      rmdir store P user_cb
      = [StoreLs P; Cb (ErrApi (mkApiError ENOTEMPTY (JsString P))) RNone] /\
      count_rm (rmdir store P user_cb) = 0 /\
      filter is_mutation (rmdir store P user_cb) = [] /\
      store_calls (rmdir store P user_cb) = [StoreLs P]) /\
  (count_rm (rmdir store P user_cb) <> 0 ->
   truthy (c_err (store_ls store P)) = false /\
   c_res (store_ls store P) = Some []).
Proof.
  split; [reflexivity|]. split.
  - intros l Herr Hres Hne.
    rewrite (rmdir_nonempty store P user_cb l Herr Hres Hne).
    repeat split; reflexivity.
  - intros Hrm.
    destruct (truthy (c_err (store_ls store P))) eqn:Herr.
    + rewrite (rmdir_failed_listing store P user_cb Herr) in Hrm.
      exfalso. apply Hrm. reflexivity.
    + split; [reflexivity|].
      destruct (c_res (store_ls store P)) as [l|] eqn:Hres.
      * destruct l as [|x l']; [reflexivity|].
        assert (Hne : x :: l' <> []) by discriminate.
        rewrite (rmdir_nonempty store P user_cb _ Herr Hres Hne) in Hrm.
        exfalso. apply Hrm. reflexivity.
      * exfalso. apply Hrm. unfold rmdir.
        rewrite (readdir_listed store P _ Herr), Hres. reflexivity.
Qed.

Lemma rmdir_checks_emptiness_before_removal_witness :
  rmdir Sample.tree "/a" user_cb
  = [StoreLs "/a"; Cb (ErrApi (mkApiError ENOTEMPTY (JsString "/a"))) RNone].
Proof.
  apply (proj1 (proj2 (rmdir_checks_emptiness_before_removal Sample.tree "/a")) ["b"]).
  - reflexivity.
  - reflexivity.
  - discriminate.
Defined.

(** C6: a store [stat] that reports a failure is delivered as not-found and
    a store [ls] that reports a failure as not-a-directory, once, whatever
    the native error is: the kind is fixed by the operation. *)
Theorem failed_stat_is_notfound_failed_ls_is_notdir (store : Store) (P : string) :
  (truthy (c_err (store_stat store P)) = true ->
   forall isLstat,
     stat store P isLstat user_cb_stats
     = [StoreStat P; Cb (ErrApi (mkApiError ENOENT (c_err (store_stat store P)))) RNone] /\
     map error_kind (delivered_errors (stat store P isLstat user_cb_stats))
     = [Some ENOENT]) /\
  (truthy (c_err (store_ls store P)) = true ->
   readdir store P user_cb_names
   = [StoreLs P; Cb (ErrApi (mkApiError ENOTDIR (c_err (store_ls store P)))) RNone] /\
   map error_kind (delivered_errors (readdir store P user_cb_names))
   = [Some ENOTDIR]).
Proof.
  split.
  - intros H isLstat. unfold stat. cbv zeta. rewrite H. split; reflexivity.
  - intros H. rewrite (readdir_failed store P user_cb_names H). split; reflexivity.
Qed.

Lemma failed_stat_is_notfound_failed_ls_is_notdir_witness :
  map error_kind (delivered_errors (stat Sample.tree "/never" false user_cb_stats))
  = [Some ENOENT] /\
  map error_kind (delivered_errors (readdir Sample.tree "/never" user_cb_names))
  = [Some ENOTDIR].
Proof.
  pose proof (failed_stat_is_notfound_failed_ls_is_notdir Sample.tree "/never") as [Hs Hl].
  split.
  - apply (Hs eq_refl false).
  - apply (Hl eq_refl).
Defined.

(** C10: when the store cannot list [P], [rmdir(P)] completes once with the
    not-a-directory error that [readdir] built, not with not-found, and it
    issues no removal. *)
Theorem rmdir_missing_path_is_notdir (store : Store) (P : string) :
  truthy (c_err (store_ls store P)) = true ->
  rmdir store P user_cb
  = [StoreLs P; Cb (ErrApi (mkApiError ENOTDIR (c_err (store_ls store P)))) RNone] /\
  map error_kind (delivered_errors (rmdir store P user_cb)) = [Some ENOTDIR] /\
  ~ In (Some ENOENT) (map error_kind (delivered_errors (rmdir store P user_cb))) /\
  count_rm (rmdir store P user_cb) = 0.
Proof.
  intros H. rewrite (rmdir_failed_listing store P user_cb H).
  repeat split; try reflexivity.
  cbn. intros [Hc|[]]. discriminate.
Qed.

Lemma rmdir_missing_path_is_notdir_witness :
  map error_kind (delivered_errors (rmdir Sample.tree "/never" user_cb))
  = [Some ENOTDIR].
Proof.
  apply (rmdir_missing_path_is_notdir Sample.tree "/never" eq_refl).
Defined.

(** C1: when the store's [rm] resolves without an error (or rejects), the
    removal primitive never invokes the completion callback: [unlink], and
    [rmdir] on an empty listing, complete zero times. *)
Theorem successful_removal_never_completes (store : Store) (P : string) :
  (forall isFile,
      (forall v, store_rm store [P] isFile = RmResolved v -> truthy v = false ->
                 _remove store P user_cb isFile = [StoreRm [P] isFile]) /\
      (forall r, store_rm store [P] isFile = RmRejected r ->
                 _remove store P user_cb isFile = [StoreRm [P] isFile])) /\
  (forall v, store_rm store [P] true = RmResolved v -> truthy v = false ->
             count_cb (unlink store P user_cb) = 0) /\
  (forall v, store_rm store [P] false = RmResolved v -> truthy v = false ->
             truthy (c_err (store_ls store P)) = false ->
             c_res (store_ls store P) = Some [] ->
             count_cb (rmdir store P user_cb) = 0).
Proof.
  repeat split.
  - intros v Hrm Hv. unfold _remove. cbv zeta. rewrite Hrm, Hv. reflexivity.
  - intros r Hrm. unfold _remove. cbv zeta. rewrite Hrm. reflexivity.
  - intros v Hrm Hv. unfold unlink. rewrite remove_cb_count, Hrm, Hv. reflexivity.
  - intros v Hrm Hv Herr Hres.
    rewrite (rmdir_empty_listing store P user_cb Herr Hres).
    change (count_cb (StoreLs P :: _remove store P user_cb false))
      with (count_cb (_remove store P user_cb false)).
    rewrite remove_cb_count, Hrm, Hv. reflexivity.
Qed.

Lemma successful_removal_never_completes_witness :
  count_cb (unlink Sample.tree "/f" user_cb) = 0 /\
  count_cb (rmdir Sample.tree "/a/b" user_cb) = 0.
Proof.
  pose proof (successful_removal_never_completes Sample.tree "/f") as [_ [Hu _]].
  pose proof (successful_removal_never_completes Sample.tree "/a/b") as [_ [_ Hr]].
  split.
  - apply (Hu JsUndefined); reflexivity.
  - apply (Hr JsUndefined); reflexivity.
Defined.

(** C7: a failure of the store's [mkdir], [mv], [empty] or [rm] reaches the
    caller as the store's own value, which carries no taxonomy kind; and
    the not-found error built by [stat] carries the store's error value as
    its path. *)
Theorem native_errors_cross_the_boundary (store : Store) :
  (forall p mode,
      mkdir store p mode user_cb
      = [StoreMkdir p; Cb (ErrVal (c_err (store_mkdir store p))) RNone] /\
      (truthy (c_err (store_mkdir store p)) = true ->
       map error_kind (delivered_errors (mkdir store p mode user_cb)) = [None])) /\
  (forall o n,
      rename store o n user_cb
      = [StoreMv o n; Cb (ErrVal (c_err (store_mv store o n))) RNone] /\
      (truthy (c_err (store_mv store o n)) = true ->
       map error_kind (delivered_errors (rename store o n user_cb)) = [None])) /\
  (empty store user_cb = [StoreEmpty; Cb (ErrVal (c_err (store_empty store))) RNone] /\
   (truthy (c_err (store_empty store)) = true ->
    map error_kind (delivered_errors (empty store user_cb)) = [None])) /\
  (forall p v,
      store_rm store [p] true = RmResolved v -> truthy v = true ->
      unlink store p user_cb = [StoreRm [p] true; Cb (ErrVal v) RNone]) /\
  (forall p l,
      truthy (c_err (store_stat store p)) = true ->
      map (fun e => match e with ErrApi a => Some (epath a) | ErrVal _ => None end)
          (delivered_errors (stat store p l user_cb_stats))
      = [Some (c_err (store_stat store p))]).
Proof.
  repeat split.
  - intros H. cbn. rewrite H. reflexivity.
  - intros H. cbn. rewrite H. reflexivity.
  - intros H. cbn. rewrite H. reflexivity.
  - intros p v Hrm Hv. unfold unlink, _remove. cbv zeta. rewrite Hrm, Hv. reflexivity.
  - intros p l H. unfold stat. cbv zeta. rewrite H. reflexivity.
Qed.

Lemma native_errors_cross_the_boundary_witness :
  mkdir Sample.failing "/a" 511 user_cb
  = [StoreMkdir "/a"; Cb (ErrVal (JsString "file already exists")) RNone] /\
  map error_kind (delivered_errors (mkdir Sample.failing "/a" 511 user_cb)) = [None] /\
  unlink Sample.failing "/f" user_cb
  = [StoreRm ["/f"] true; Cb (ErrVal (JsErrorObj "file does not exist")) RNone].
Proof.
  pose proof (native_errors_cross_the_boundary Sample.failing) as [Hm [_ [_ [Hu _]]]].
  destruct (Hm "/a" 511%N) as [Ht Hk].
  split; [exact Ht|]. split.
  - apply Hk. reflexivity.
  - apply (Hu "/f"); reflexivity.
Defined.

(** C8: [unlink] and [rmdir] both reach the store through [_remove]; the
    [recursive] option handed to the store's [rm] is the [isFile]
    discriminator itself: [true] for [unlink], [false] for [rmdir]. *)
Theorem recursion_flag_is_the_file_discriminator (store : Store) (P : string) :
  (forall cb isFile, hd_error (_remove store P cb isFile) = Some (StoreRm [P] isFile)) /\
  (forall cb, unlink store P cb = _remove store P cb true) /\
  hd_error (unlink store P user_cb) = Some (StoreRm [P] true) /\
  (truthy (c_err (store_ls store P)) = false ->
   c_res (store_ls store P) = Some [] ->
   rmdir store P user_cb = StoreLs P :: _remove store P user_cb false /\
   nth_error (rmdir store P user_cb) 1 = Some (StoreRm [P] false)).
Proof.
  split; [reflexivity|]. split; [reflexivity|]. split; [reflexivity|].
  intros Herr Hres.
  rewrite (rmdir_empty_listing store P user_cb Herr Hres).
  split; reflexivity.
Qed.

Lemma recursion_flag_is_the_file_discriminator_witness :
  nth_error (rmdir Sample.tree "/a/b" user_cb) 1 = Some (StoreRm ["/a/b"] false) /\
  hd_error (unlink Sample.tree "/f" user_cb) = Some (StoreRm ["/f"] true).
Proof.
  pose proof (recursion_flag_is_the_file_discriminator Sample.tree "/a/b") as [_ [_ [_ Hr]]].
  pose proof (recursion_flag_is_the_file_discriminator Sample.tree "/f") as [_ [_ [Hu _]]].
  split.
  - apply (Hr eq_refl eq_refl).
  - exact Hu.
Defined.

(** * Properties of the file object *)

Module FileFacts.
Import File.

Lemma dispatch_detached (len : N) (cb : BFSOneArgCallback) (f : OrbitFSFile)
      (evs : list WriterEvent) :
  dispatch len cb (mkHandlers false false) f evs = (f, []).
Proof.
  induction evs as [|ev evs IH]; [reflexivity|].
  destruct ev; cbn; exact IH.
Qed.

Lemma dispatch_writeend (len : N) (cb : BFSOneArgCallback) (f : OrbitFSFile)
      (arg : JsVal) (evs : list WriterEvent) (hs : Handlers) :
  onwriteend hs = true ->
  dispatch len cb hs f (EvWriteEnd arg :: evs)
  = (resetDirty f, WriterTruncate len :: cb (ErrVal JsUndefined)).
Proof.
  intros H. cbn. rewrite H, dispatch_detached, app_nil_r. reflexivity.
Qed.

(** The handlers never issue a second write. *)
Lemma dispatch_no_write (len : N) (evs : list WriterEvent) :
  forall hs f, count_write (snd (dispatch len user_cb hs f evs)) = 0.
Proof.
  induction evs as [|ev evs IH]; intros hs f; [reflexivity|].
  destruct ev as [arg|err]; cbn.
  - destruct (onwriteend hs).
    + specialize (IH (mkHandlers false false) (resetDirty f)).
      destruct (dispatch len user_cb (mkHandlers false false) (resetDirty f) evs).
      exact IH.
    + apply IH.
  - destruct (onerror hs).
    + specialize (IH hs f). destruct (dispatch len user_cb hs f evs). exact IH.
    + apply IH.
Qed.

(** A dirty [sync] that obtains a writer writes the whole buffer, once. *)
Lemma sync_dirty_writes_once (f : OrbitFSFile) (evs : list WriterEvent) :
  isDirty f = true ->
  count_write (snd (sync f (Writer evs) user_cb)) = 1 /\
  nth_error (snd (sync f (Writer evs) user_cb)) 1 = Some (WriterWrite (getBuffer f)).
Proof.
  intros Hd. unfold sync. rewrite Hd. cbn [negb].
  pose proof (dispatch_no_write (N.of_nat (length (getBuffer f))) evs
                                (mkHandlers true true) f) as Hn.
  destruct (dispatch _ user_cb (mkHandlers true true) f evs) as [f' t].
  cbn in *. unfold count_write in *. cbn. rewrite Hn. split; reflexivity.
Qed.

(** The write ended: truncate to the blob's size, clear the flag, complete. *)
Lemma sync_dirty_writeend (f : OrbitFSFile) (arg : JsVal) (evs : list WriterEvent) :
  isDirty f = true ->
  sync f (Writer (EvWriteEnd arg :: evs)) user_cb
  = (resetDirty f,
     [WriterCreate; WriterWrite (getBuffer f);
      WriterTruncate (N.of_nat (length (getBuffer f)));
      Cb (ErrVal JsUndefined) RNone]).
Proof.
  intros Hd. unfold sync. rewrite Hd. cbn [negb].
  rewrite dispatch_writeend by reflexivity. reflexivity.
Qed.

(** Only [onerror] fired: the flag stays set and the error is handed over
    as it is. *)
Lemma sync_dirty_error_only (f : OrbitFSFile) (err : JsVal) :
  isDirty f = true ->
  sync f (Writer [EvError err]) user_cb
  = (f, [WriterCreate; WriterWrite (getBuffer f); Cb (ErrVal err) RNone]).
Proof.
  intros Hd. unfold sync. rewrite Hd. reflexivity.
Qed.

(** C3: a writer that reports a failed write fires [error] and then
    [writeend].  On a dirty handle [sync] then completes twice, first
    with the error and then with success, truncates, and clears the
    dirty flag although the write failed. *)
Theorem failed_flush_clears_dirty_flag (f : OrbitFSFile) (err arg : JsVal)
        (evs : list WriterEvent) :
  isDirty f = true ->
  sync f (Writer (EvError err :: EvWriteEnd arg :: evs)) user_cb
  = (resetDirty f,
     [WriterCreate; WriterWrite (getBuffer f);
      Cb (ErrVal err) RNone;
      WriterTruncate (N.of_nat (length (getBuffer f)));
      Cb (ErrVal JsUndefined) RNone]) /\
  isDirty (fst (sync f (Writer (EvError err :: EvWriteEnd arg :: evs)) user_cb)) = false /\
  count_cb (snd (sync f (Writer (EvError err :: EvWriteEnd arg :: evs)) user_cb)) = 2.
Proof.
  intros Hd.
  assert (E : sync f (Writer (EvError err :: EvWriteEnd arg :: evs)) user_cb
              = (resetDirty f,
                 [WriterCreate; WriterWrite (getBuffer f);
                  Cb (ErrVal err) RNone;
                  WriterTruncate (N.of_nat (length (getBuffer f)));
                  Cb (ErrVal JsUndefined) RNone])).
  { unfold sync. rewrite Hd. cbn [negb].
    cbn [dispatch onerror onwriteend]. rewrite dispatch_detached. reflexivity. }
  rewrite E. repeat split; reflexivity.
Qed.

Lemma failed_flush_clears_dirty_flag_witness :
  isDirty (fst (sync Sample.dirty_file
                     (Writer [EvError (JsErrorObj "quota exceeded"); EvWriteEnd JsUndefined])
                     user_cb)) = false.
Proof.
  apply (failed_flush_clears_dirty_flag Sample.dirty_file
           (JsErrorObj "quota exceeded") JsUndefined [] eq_refl).
Defined.

(** C9: on a handle whose dirty flag is clear, [sync] completes once with
    no error, issues no call, and leaves the handle as it was; so does a
    second [sync] right after it. *)
Theorem sync_clean_is_noop (f : OrbitFSFile) (w w' : EntryBehaviour) :
  isDirty f = false ->
  sync f w user_cb = (f, [Cb (ErrVal JsUndefined) RNone]) /\
  is_error (ErrVal JsUndefined) = false /\
  store_calls (snd (sync f w user_cb)) = [] /\
  sync (fst (sync f w user_cb)) w' user_cb = (f, [Cb (ErrVal JsUndefined) RNone]) /\
  store_calls (snd (sync (fst (sync f w user_cb)) w' user_cb)) = [].
Proof.
  intros Hc.
  assert (E : forall b, sync f b user_cb = (f, [Cb (ErrVal JsUndefined) RNone])).
  { intros b. unfold sync. rewrite Hc. reflexivity. }
  rewrite (E w). cbn [fst snd]. rewrite (E w').
  repeat split; reflexivity.
Qed.

Lemma sync_clean_is_noop_witness :
  sync Sample.clean_file (Writer [EvWriteEnd JsUndefined]) user_cb
  = (Sample.clean_file, [Cb (ErrVal JsUndefined) RNone]).
Proof.
  apply (sync_clean_is_noop Sample.clean_file (Writer [EvWriteEnd JsUndefined])
                            NoWriter eq_refl).
Defined.

(** C4, as stated, fails: after [close] on a clean handle a further
    [sync] completes without an error. *)
Lemma close_leaves_handle_open :
  ~ closed_after_close Sample.clean_file (Writer []).
Proof.
  intros H. destruct (H NoWriter) as [[e [r [Hin He]]] _].
  cbn in Hin. destruct Hin as [Heq|[]].
  inversion Heq; subst. discriminate He.
Qed.

(** C4, amended: [close] runs [sync], whatever happened on the handle
    before, and nothing else: it returns what [sync] returns, the handle
    keeps its path and content, and a handle left clean by [close] still
    accepts calls: a further [sync] or [close] on it completes with no
    error. *)
Theorem close_is_sync_and_handle_stays_open (f : OrbitFSFile) (w w' : EntryBehaviour)
        (cb : BFSOneArgCallback) :
  close f w cb = sync f w cb /\
  _path (fst (close f w cb)) = _path f /\
  getBuffer (fst (close f w cb)) = getBuffer f /\
  (isDirty (fst (close f w user_cb)) = false ->
   snd (sync (fst (close f w user_cb)) w' user_cb) = [Cb (ErrVal JsUndefined) RNone] /\
   snd (close (fst (close f w user_cb)) w' user_cb) = [Cb (ErrVal JsUndefined) RNone]).
Proof.
  split; [reflexivity|].
  assert (P : forall len c evs hs g,
             _path (fst (dispatch len c hs g evs)) = _path g /\
             getBuffer (fst (dispatch len c hs g evs)) = getBuffer g).
  { intros len c evs. induction evs as [|ev evs IH]; intros hs g; [split; reflexivity|].
    destruct ev as [a|e]; cbn.
    - destruct (onwriteend hs).
      + specialize (IH (mkHandlers false false) (resetDirty g)).
        destruct (dispatch len c (mkHandlers false false) (resetDirty g) evs).
        exact IH.
      + apply IH.
    - destruct (onerror hs).
      + specialize (IH hs g). destruct (dispatch len c hs g evs). exact IH.
      + apply IH. }
  assert (Q : _path (fst (sync f w cb)) = _path f /\
              getBuffer (fst (sync f w cb)) = getBuffer f).
  { unfold sync. destruct (isDirty f); cbn [negb]; [|split; reflexivity].
    destruct w as [|evs]; [split; reflexivity|].
    specialize (P (N.of_nat (length (getBuffer f))) cb evs (mkHandlers true true) f).
    destruct (dispatch _ cb (mkHandlers true true) f evs). exact P. }
  unfold close. split; [apply Q|]. split; [apply Q|].
  intros Hc. unfold sync at 1 3. rewrite Hc. split; reflexivity.
Qed.

Lemma close_is_sync_and_handle_stays_open_witness :
  snd (sync (fst (close Sample.dirty_file (Writer [EvWriteEnd JsUndefined]) user_cb))
            NoWriter user_cb)
  = [Cb (ErrVal JsUndefined) RNone].
Proof.
  apply (close_is_sync_and_handle_stays_open Sample.dirty_file
           (Writer [EvWriteEnd JsUndefined]) NoWriter user_cb).
  reflexivity.
Defined.

End FileFacts.

(** * Properties of the two-phase construction *)

Module ConstructFacts.
Import Construct.

(** [Create] reports an error only when the wrapped call throws. *)
Lemma Create_throws (opts : OrbitFSOptions) (err : JsVal) :
  truthy err = true ->
  Create opts (BindThrows err) user_cb_instance
  = [StoreCreate (address (new_OrbitFS opts)) (permissions (new_OrbitFS opts));
     Cb (ErrVal err) RNone].
Proof.
  intros H. unfold Create, _allocate. cbn. rewrite H. reflexivity.
Qed.

(** Whatever reaches the completion of [_allocate] is bound as the store
    and reported as success. *)
Lemma Create_calls (opts : OrbitFSOptions) (first : JsVal) :
  Create opts (BindCalls first) user_cb_instance
  = [StoreCreate (address (new_OrbitFS opts)) (permissions (new_OrbitFS opts));
     Cb (ErrVal JsNull) (RInstance (set_fs (new_OrbitFS opts) first))].
Proof.
  reflexivity.
Qed.

(** C5: a failed binding does not reach the caller as an error.
    [CreateDefault] never hands an error to its completion callback,
    whatever the binding does; when a failed binding calls the
    completion, [CreateDefault] and [Create] both hand back, with no
    error, an instance that is not usable. *)
Theorem failed_binding_hands_back_instance (o : BindOutcome) :
  error_delivered (CreateDefault o user_cb_instance) = false /\
  (forall first,
      o = BindCalls first -> binding_failed o = true ->
      CreateDefault o user_cb_instance
      = [StoreCreateDefault;
         Cb (ErrVal JsNull) (RInstance (mkOrbitFS "" ["*"] first))] /\
      usable (mkOrbitFS "" ["*"] first) = false /\
      (forall opts,
          error_delivered (Create opts o user_cb_instance) = false /\
          instance_delivered (Create opts o user_cb_instance) = true)).
Proof.
  split.
  - destruct o; reflexivity.
  - intros first -> Hf. split; [reflexivity|]. split.
    + destruct first; try reflexivity. discriminate Hf.
    + intros opts. rewrite Create_calls. split; reflexivity.
Qed.

Lemma failed_binding_hands_back_instance_witness :
  CreateDefault (BindCalls (JsErrorObj "cannot open database")) user_cb_instance
  = [StoreCreateDefault;
     Cb (ErrVal JsNull)
        (RInstance (mkOrbitFS "" ["*"] (JsErrorObj "cannot open database")))].
Proof.
  apply (proj2 (failed_binding_hands_back_instance
                  (BindCalls (JsErrorObj "cannot open database")))
               (JsErrorObj "cannot open database") eq_refl eq_refl).
Defined.

End ConstructFacts.


(** * Further properties of the file object *)

Module SyncFacts.
Import File Observe.

(** The handlers as installed by [sync], against any event sequence. *)
Lemma dispatch_attached (len : N) (cb : BFSOneArgCallback) (f : OrbitFSFile)
      (evs : list WriterEvent) :
  dispatch len cb (mkHandlers true true) f evs
  = (if existsb is_writeend evs then resetDirty f else f,
     flat_map cb (map ErrVal (errors_before_writeend evs))
     ++ (if existsb is_writeend evs
         then WriterTruncate len :: cb (ErrVal JsUndefined) else [])).
Proof.
  induction evs as [|ev evs IH]; [reflexivity|].
  destruct ev as [arg|err].
  - cbn. rewrite FileFacts.dispatch_detached, app_nil_r. reflexivity.
  - cbn [dispatch onerror]. rewrite IH. cbn. rewrite app_assoc. reflexivity.
Qed.

Lemma sync_dirty_run (f : OrbitFSFile) (evs : list WriterEvent)
      (cb : BFSOneArgCallback) :
  isDirty f = true ->
  sync f (Writer evs) cb
  = (if existsb is_writeend evs then resetDirty f else f,
     WriterCreate :: WriterWrite (getBuffer f) ::
     flat_map cb (map ErrVal (errors_before_writeend evs))
     ++ (if existsb is_writeend evs
         then WriterTruncate (N.of_nat (length (getBuffer f)))
              :: cb (ErrVal JsUndefined)
         else [])).
Proof.
  intros Hd. unfold sync. rewrite Hd. cbn [negb].
  rewrite dispatch_attached. reflexivity.
Qed.

Lemma filter_error_cbs (p : Event -> bool) (errs : list JsVal) :
  (forall e, p (Cb (ErrVal e) RNone) = true) ->
  filter p (flat_map user_cb (map ErrVal errs))
  = map (fun e => Cb (ErrVal e) RNone) errs.
Proof.
  intros Hp. induction errs as [|e errs IH]; [reflexivity|].
  cbn. rewrite Hp, IH. reflexivity.
Qed.

Lemma filter_out_error_cbs (p : Event -> bool) (errs : list JsVal) :
  (forall e, p (Cb (ErrVal e) RNone) = false) ->
  filter p (flat_map user_cb (map ErrVal errs)) = [].
Proof.
  intros Hp. induction errs as [|e errs IH]; [reflexivity|].
  cbn. rewrite Hp, IH. reflexivity.
Qed.

Lemma first_writeend_decides (pre post : list WriterEvent) (a : JsVal) :
  existsb is_writeend (pre ++ EvWriteEnd a :: post) = true /\
  errors_before_writeend (pre ++ EvWriteEnd a :: post)
  = errors_before_writeend (pre ++ [EvWriteEnd JsUndefined]).
Proof.
  induction pre as [|ev pre [IH1 IH2]]; [split; reflexivity|].
  destruct ev as [arg|err]; cbn; [split; reflexivity|].
  split; [exact IH1|]. rewrite IH2. reflexivity.
Qed.

(** X1: the dirty flag after a [sync] on a dirty handle is clear exactly
    when the writer fired a [writeend]. *)
Theorem sync_clears_flag_iff_writeend (f : OrbitFSFile) (evs : list WriterEvent)
        (cb : BFSOneArgCallback) :
  isDirty f = true ->
  isDirty (fst (sync f (Writer evs) cb)) = negb (existsb is_writeend evs).
Proof.
  intros Hd. rewrite (sync_dirty_run f evs cb Hd). cbn [fst].
  destruct (existsb is_writeend evs); [reflexivity|exact Hd].
Qed.

Lemma sync_clears_flag_iff_writeend_witness :
  isDirty (fst (sync Sample.dirty_file
                     (Writer [EvError (JsErrorObj "busy"); EvError (JsErrorObj "busy")])
                     user_cb)) = true.
Proof.
  apply (sync_clears_flag_iff_writeend Sample.dirty_file
           [EvError (JsErrorObj "busy"); EvError (JsErrorObj "busy")] user_cb eq_refl).
Defined.

(** X2: the completions of a [sync] on a dirty handle are the writer's
    errors fired before its first [writeend], each passed on unchanged and
    in order, followed by one success when a [writeend] was fired; nothing
    is delivered after that success. *)
Theorem sync_completions (f : OrbitFSFile) (evs : list WriterEvent) :
  isDirty f = true ->
  filter is_cb (snd (sync f (Writer evs) user_cb))
  = map (fun e => Cb (ErrVal e) RNone) (errors_before_writeend evs)
    ++ (if existsb is_writeend evs then [Cb (ErrVal JsUndefined) RNone] else []).
Proof.
  intros Hd. rewrite (sync_dirty_run f evs user_cb Hd). cbn [snd filter is_cb].
  rewrite filter_app, filter_error_cbs by reflexivity.
  destruct (existsb is_writeend evs); reflexivity.
Qed.

Lemma sync_completions_witness :
  filter is_cb
    (snd (sync Sample.dirty_file
               (Writer [EvError (JsString "a"); EvError (JsString "b");
                        EvWriteEnd JsUndefined; EvError (JsString "c")])
               user_cb))
  = [Cb (ErrVal (JsString "a")) RNone; Cb (ErrVal (JsString "b")) RNone;
     Cb (ErrVal JsUndefined) RNone].
Proof.
  apply (sync_completions Sample.dirty_file
           [EvError (JsString "a"); EvError (JsString "b");
            EvWriteEnd JsUndefined; EvError (JsString "c")] eq_refl).
Defined.

(** X3: a [sync] on a dirty handle truncates at most once, only when the
    writer fired a [writeend], and always to the byte length of the
    buffer it wrote. *)
Theorem sync_truncates_to_buffer_length (f : OrbitFSFile) (evs : list WriterEvent) :
  isDirty f = true ->
  filter is_truncate (snd (sync f (Writer evs) user_cb))
  = if existsb is_writeend evs
    then [WriterTruncate (N.of_nat (length (getBuffer f)))] else [].
Proof.
  intros Hd. rewrite (sync_dirty_run f evs user_cb Hd). cbn [snd filter is_truncate].
  rewrite filter_app, filter_out_error_cbs by reflexivity.
  destruct (existsb is_writeend evs); reflexivity.
Qed.

Lemma sync_truncates_to_buffer_length_witness :
  filter is_truncate
    (snd (sync Sample.dirty_file
               (Writer [EvWriteEnd JsUndefined; EvWriteEnd JsUndefined]) user_cb))
  = [WriterTruncate 3].
Proof.
  apply (sync_truncates_to_buffer_length Sample.dirty_file
           [EvWriteEnd JsUndefined; EvWriteEnd JsUndefined] eq_refl).
Defined.

(** X4: what the writer fires after its first [writeend], and the
    argument of that [writeend], have no effect on [sync]. *)
Theorem sync_ignores_events_after_writeend (f : OrbitFSFile)
        (pre post : list WriterEvent) (a : JsVal) (cb : BFSOneArgCallback) :
  sync f (Writer (pre ++ EvWriteEnd a :: post)) cb
  = sync f (Writer (pre ++ [EvWriteEnd JsUndefined])) cb.
Proof.
  destruct (isDirty f) eqn:Hd.
  - rewrite !(sync_dirty_run f _ cb Hd).
    destruct (first_writeend_decides pre post a) as [E1 E2].
    destruct (first_writeend_decides pre [] JsUndefined) as [E3 _].
    rewrite E1, E2, E3. reflexivity.
  - unfold sync. rewrite Hd. reflexivity.
Qed.

(** X5: when the writer fires no [writeend], [sync] leaves the handle as
    it was, so the next [sync] flushes the same buffer again. *)
Theorem failed_sync_can_be_retried (f : OrbitFSFile) (evs : list WriterEvent)
        (w : EntryBehaviour) (cb cb' : BFSOneArgCallback) :
  existsb is_writeend evs = false ->
  fst (sync f (Writer evs) cb) = f /\
  sync (fst (sync f (Writer evs) cb)) w cb' = sync f w cb'.
Proof.
  intros Hn.
  assert (E : fst (sync f (Writer evs) cb) = f).
  { destruct (isDirty f) eqn:Hd.
    - rewrite (sync_dirty_run f evs cb Hd), Hn. reflexivity.
    - unfold sync. rewrite Hd. reflexivity. }
  rewrite E. split; reflexivity.
Qed.

Lemma failed_sync_can_be_retried_witness :
  fst (sync Sample.dirty_file (Writer [EvError (JsErrorObj "busy")]) user_cb)
  = Sample.dirty_file.
Proof.
  apply (failed_sync_can_be_retried Sample.dirty_file [EvError (JsErrorObj "busy")]
           NoWriter user_cb user_cb eq_refl).
Defined.

(** X6: once the writer has fired a [writeend] for a dirty handle, a
    further [sync] or [close] completes with no error and issues no write:
    there is one flush per dirty window. *)
Theorem flushed_handle_syncs_without_write (f : OrbitFSFile) (evs : list WriterEvent)
        (w : EntryBehaviour) (cb : BFSOneArgCallback) :
  isDirty f = true ->
  existsb is_writeend evs = true ->
  sync (fst (sync f (Writer evs) cb)) w user_cb
  = (resetDirty f, [Cb (ErrVal JsUndefined) RNone]) /\
  close (fst (close f (Writer evs) cb)) w user_cb
  = (resetDirty f, [Cb (ErrVal JsUndefined) RNone]).
Proof.
  intros Hd Hw. unfold close.
  rewrite (sync_dirty_run f evs cb Hd), Hw. split; reflexivity.
Qed.

Lemma flushed_handle_syncs_without_write_witness :
  sync (fst (sync Sample.dirty_file (Writer [EvWriteEnd JsUndefined]) user_cb))
       (Writer [EvWriteEnd JsUndefined]) user_cb
  = (Sample.clean_file, [Cb (ErrVal JsUndefined) RNone]).
Proof.
  apply (flushed_handle_syncs_without_write Sample.dirty_file [EvWriteEnd JsUndefined]
           (Writer [EvWriteEnd JsUndefined]) user_cb eq_refl eq_refl).
Defined.

(** X7: [sync] and [close] never change the path or the content of the
    handle, and never set the dirty flag. *)
Theorem sync_keeps_path_and_content (f : OrbitFSFile) (w : EntryBehaviour)
        (cb : BFSOneArgCallback) :
  _path (fst (sync f w cb)) = _path f /\
  getBuffer (fst (sync f w cb)) = getBuffer f /\
  (isDirty f = false -> isDirty (fst (sync f w cb)) = false) /\
  fst (close f w cb) = fst (sync f w cb).
Proof.
  assert (Hc : fst (close f w cb) = fst (sync f w cb)) by reflexivity.
  destruct (isDirty f) eqn:Hd.
  - destruct w as [|evs].
    + unfold sync in *. rewrite Hd in *. cbn [negb fst].
      split; [reflexivity|]. split; [reflexivity|]. split; [discriminate|exact Hc].
    + rewrite (sync_dirty_run f evs cb Hd) in *. cbn [fst].
      split; [destruct (existsb is_writeend evs); reflexivity|].
      split; [destruct (existsb is_writeend evs); reflexivity|].
      split; [discriminate|exact Hc].
  - unfold sync in *. rewrite Hd in *. cbn [negb fst].
    split; [reflexivity|]. split; [reflexivity|]. split; [intros _; exact Hd|exact Hc].
Qed.

Lemma sync_keeps_path_and_content_witness :
  isDirty (fst (sync Sample.clean_file (Writer [EvError JsNull]) user_cb)) = false.
Proof.
  apply (sync_keeps_path_and_content Sample.clean_file (Writer [EvError JsNull]) user_cb).
  reflexivity.
Defined.

(** X8: a [sync] on a dirty handle that obtains a writer writes the whole
    buffer exactly once, right after obtaining the writer, whatever the
    writer fires. *)
Theorem dirty_sync_writes_buffer_once (f : OrbitFSFile) (evs : list WriterEvent) :
  isDirty f = true ->
  filter is_write (snd (sync f (Writer evs) user_cb)) = [WriterWrite (getBuffer f)] /\
  firstn 2 (snd (sync f (Writer evs) user_cb))
  = [WriterCreate; WriterWrite (getBuffer f)].
Proof.
  intros Hd. rewrite (sync_dirty_run f evs user_cb Hd). cbn [snd filter is_write firstn].
  rewrite filter_app, filter_out_error_cbs by reflexivity.
  destruct (existsb is_writeend evs); split; reflexivity.
Qed.

Lemma dirty_sync_writes_buffer_once_witness :
  filter is_write
    (snd (sync Sample.dirty_file
               (Writer [EvError (JsErrorObj "busy"); EvWriteEnd JsUndefined]) user_cb))
  = [WriterWrite Sample.bytes3].
Proof.
  apply (dirty_sync_writes_buffer_once Sample.dirty_file
           [EvError (JsErrorObj "busy"); EvWriteEnd JsUndefined] eq_refl).
Defined.

End SyncFacts.

(** * Further properties of the adapter *)

Section ContractFacts.

Variable store : Store.

Lemma remove_shape (P : string) (isFile : bool) :
  store_calls (_remove store P user_cb isFile) = [StoreRm [P] isFile] /\
  count_cb (_remove store P user_cb isFile) <= 1.
Proof.
  rewrite remove_cb_count. unfold _remove. cbv zeta.
  destruct (store_rm store [P] isFile) as [v|r]; [destruct (truthy v)|];
    split; (reflexivity || auto).
Qed.

Lemma stat_cases (P : string) (l : bool) :
  (exists e r, stat store P l user_cb_stats = [StoreStat P; Cb e r]) \/
  stat store P l user_cb_stats = [StoreStat P; Uncaught].
Proof.
  unfold stat. cbv zeta.
  destruct (truthy (c_err (store_stat store P))).
  { left. do 2 eexists. reflexivity. }
  destruct (c_res (store_stat store P)) as [res|]; [left|right; reflexivity].
  destruct (String.eqb (si_type res) "file").
  { do 2 eexists. reflexivity. }
  destruct (String.eqb (si_type res) "directory"); do 2 eexists; reflexivity.
Qed.

Lemma rmdir_cases (P : string) :
  (exists e, rmdir store P user_cb = [StoreLs P; Cb e RNone]) \/
  rmdir store P user_cb = [StoreLs P; Uncaught] \/
  rmdir store P user_cb = StoreLs P :: _remove store P user_cb false.
Proof.
  destruct (truthy (c_err (store_ls store P))) eqn:Herr.
  - left. rewrite (rmdir_failed_listing store P user_cb Herr). eexists. reflexivity.
  - destruct (c_res (store_ls store P)) as [[|x l]|] eqn:Hres.
    + right. right. apply (rmdir_empty_listing store P user_cb Herr Hres).
    + left. rewrite (rmdir_nonempty store P user_cb (x :: l) Herr Hres);
        [eexists; reflexivity|discriminate].
    + right. left. unfold rmdir. rewrite (readdir_listed store P _ Herr), Hres. reflexivity.
Qed.

End ContractFacts.

(** X9: over any store, no operation of the adapter invokes the caller's
    completion callback more than once; [readdir], [mkdir], [rename] and
    [empty] invoke it exactly once. *)
Theorem operations_complete_at_most_once (store : Store) (P Q : string)
        (l : bool) (mode : N) :
  count_cb (stat store P l user_cb_stats) <= 1 /\
  count_cb (readdir store P user_cb_names) = 1 /\
  count_cb (rmdir store P user_cb) <= 1 /\
  count_cb (unlink store P user_cb) <= 1 /\
  count_cb (mkdir store P mode user_cb) = 1 /\
  count_cb (rename store P Q user_cb) = 1 /\
  count_cb (empty store user_cb) = 1.
Proof.
  split.
  { destruct (stat_cases store P l) as [[e [r ->]]| ->]; cbn; auto. }
  split.
  { unfold readdir. cbv zeta.
    destruct (truthy (c_err (store_ls store P))); reflexivity. }
  split.
  { destruct (rmdir_cases store P) as [[e ->]|[->| ->]]; [cbn; auto|cbn; auto|].
    change (count_cb (StoreLs P :: _remove store P user_cb false))
      with (count_cb (_remove store P user_cb false)).
    apply remove_shape. }
  split.
  { apply remove_shape. }
  repeat split.
Qed.

(** X10: [stat] and [readdir] only read: over any store each issues one
    call, the store's [stat] or [ls] of the given path, and no call that
    changes the store. *)
Theorem stat_and_readdir_only_read (store : Store) (P : string) (l : bool) :
  store_calls (stat store P l user_cb_stats) = [StoreStat P] /\
  filter is_mutation (stat store P l user_cb_stats) = [] /\
  store_calls (readdir store P user_cb_names) = [StoreLs P] /\
  filter is_mutation (readdir store P user_cb_names) = [].
Proof.
  split; [|split].
  - destruct (stat_cases store P l) as [[e [r ->]]| ->]; reflexivity.
  - destruct (stat_cases store P l) as [[e [r ->]]| ->]; reflexivity.
  - unfold readdir. cbv zeta.
    destruct (truthy (c_err (store_ls store P))); split; reflexivity.
Qed.

(** X11: when the store's [stat] succeeds, the caller receives a file
    record with the store's size for type [file], a directory record with
    the store's block count for type [directory], and for any other type
    a not-found error that carries the path. *)
Theorem stat_classifies_by_type (store : Store) (P : string) (l : bool) (res : StatInfo) :
  truthy (c_err (store_stat store P)) = false ->
  c_res (store_stat store P) = Some res ->
  stat store P l user_cb_stats
  = [StoreStat P;
     if String.eqb (si_type res) "file"
     then Cb (ErrVal JsNull) (RStats (mkStats FILE (si_size res)))
     else if String.eqb (si_type res) "directory"
          then Cb (ErrVal JsNull) (RStats (mkStats DIRECTORY (si_blocks res)))
          else Cb (ErrApi (mkApiError ENOENT (JsString P))) RNone].
Proof.
  intros Herr Hres. unfold stat. cbv zeta. rewrite Herr, Hres.
  destruct (String.eqb (si_type res) "file"); [reflexivity|].
  destruct (String.eqb (si_type res) "directory"); reflexivity.
Qed.

Lemma stat_classifies_by_type_witness :
  stat Sample.tree "/f" false user_cb_stats
  = [StoreStat "/f"; Cb (ErrVal JsNull) (RStats (mkStats FILE 3))].
Proof.
  apply (stat_classifies_by_type Sample.tree "/f" false (mkStatInfo "file" 3 1)
           eq_refl eq_refl).
Defined.

(** X12: when the store's [ls] succeeds, [readdir] hands the caller the
    store's list of names as it is: same entries, same order. *)
Theorem readdir_returns_listing (store : Store) (P : string) (names : list string) :
  truthy (c_err (store_ls store P)) = false ->
  c_res (store_ls store P) = Some names ->
  readdir store P user_cb_names = [StoreLs P; Cb (ErrVal JsNull) (RNames names)].
Proof.
  intros Herr Hres. rewrite (readdir_listed store P user_cb_names Herr), Hres.
  reflexivity.
Qed.

Lemma readdir_returns_listing_witness :
  readdir Sample.tree "/a" user_cb_names
  = [StoreLs "/a"; Cb (ErrVal JsNull) (RNames ["b"])].
Proof.
  apply (readdir_returns_listing Sample.tree "/a" ["b"] eq_refl eq_refl).
Defined.

(** X13: a completion with a falsy error (such as the empty string) and
    no result is taken for a success: [stat] and [rmdir] then throw while
    reading the missing result and never complete, and [readdir] completes
    with no error and no listing. *)
Theorem falsy_error_without_result (store : Store) (P : string) (l : bool) :
  (truthy (c_err (store_stat store P)) = false ->
   c_res (store_stat store P) = None ->
   stat store P l user_cb_stats = [StoreStat P; Uncaught]) /\
  (truthy (c_err (store_ls store P)) = false ->
   c_res (store_ls store P) = None ->
   rmdir store P user_cb = [StoreLs P; Uncaught] /\
   readdir store P user_cb_names = [StoreLs P; Cb (ErrVal JsNull) RNone]).
Proof.
  split.
  - intros Herr Hres. unfold stat. cbv zeta. rewrite Herr, Hres. reflexivity.
  - intros Herr Hres. unfold rmdir.
    rewrite !(readdir_listed store P _ Herr), Hres. split; reflexivity.
Qed.

Lemma falsy_error_without_result_witness :
  stat Silent.silent "/a" false user_cb_stats = [StoreStat "/a"; Uncaught] /\
  rmdir Silent.silent "/a" user_cb = [StoreLs "/a"; Uncaught].
Proof.
  pose proof (falsy_error_without_result Silent.silent "/a" false) as [Hs Hl].
  split.
  - apply (Hs eq_refl eq_refl).
  - apply (Hl eq_refl eq_refl).
Defined.

(** X14: over any store, the calls [rmdir] issues are the listing alone,
    or the listing followed by one non-recursive [rm] of exactly the given
    path; it issues no other call. *)
Theorem rmdir_issues_ls_then_at_most_one_rm (store : Store) (P : string) :
  store_calls (rmdir store P user_cb) = [StoreLs P] \/
  store_calls (rmdir store P user_cb) = [StoreLs P; StoreRm [P] false].
Proof.
  destruct (rmdir_cases store P) as [[e ->]|[->| ->]]; [left; reflexivity|left; reflexivity|].
  right.
  change (store_calls (StoreLs P :: _remove store P user_cb false))
    with (StoreLs P :: store_calls (_remove store P user_cb false)).
  rewrite (proj1 (remove_shape store P false)). reflexivity.
Qed.

(** X15: over any store, [unlink] issues exactly one call, a recursive
    [rm] of the given path; it does not look at what the path holds
    first. *)
Theorem unlink_issues_one_rm_without_lookup (store : Store) (P : string) :
  store_calls (unlink store P user_cb) = [StoreRm [P] true].
Proof.
  apply remove_shape.
Qed.

(** X16: [rmdir] of a path with an empty listing completes only when the
    store's [rm] resolves to a truthy value, and then once, with that
    value as the error. *)
Theorem rmdir_empty_reports_rm_value (store : Store) (P : string) (v : JsVal) :
  truthy (c_err (store_ls store P)) = false ->
  c_res (store_ls store P) = Some [] ->
  store_rm store [P] false = RmResolved v ->
  rmdir store P user_cb
  = [StoreLs P; StoreRm [P] false] ++ (if truthy v then [Cb (ErrVal v) RNone] else []).
Proof.
  intros Herr Hres Hrm. rewrite (rmdir_empty_listing store P user_cb Herr Hres).
  unfold _remove. cbv zeta. rewrite Hrm. destruct (truthy v); reflexivity.
Qed.

Lemma rmdir_empty_reports_rm_value_witness :
  rmdir Sample.failing "/a/b" user_cb
  = [StoreLs "/a/b"; StoreRm ["/a/b"] false;
     Cb (ErrVal (JsErrorObj "file does not exist")) RNone].
Proof.
  apply (rmdir_empty_reports_rm_value Sample.failing "/a/b"
           (JsErrorObj "file does not exist") eq_refl eq_refl eq_refl).
Defined.

(** * Further properties of the construction and of the factories *)

Module FactoryFacts.
Import Construct Registry.

Lemma or_empty_string (a : string) :
  (if truthy (JsString a) then a else "") = a.
Proof.
  cbn. destruct (String.eqb a "") eqn:E; [|reflexivity].
  apply String.eqb_eq in E. subst a. reflexivity.
Qed.

Lemma new_OrbitFS_fields (opts : OrbitFSOptions) :
  new_OrbitFS opts
  = mkOrbitFS (match opt_address opts with Some a => a | None => "" end)
              (match opt_permissions opts with Some l => l | None => ["*"] end)
              JsUndefined.
Proof.
  unfold new_OrbitFS. destruct (opt_address opts) as [a|]; [|reflexivity].
  rewrite or_empty_string. reflexivity.
Qed.


(** X18: the instance [Create] hands back holds the given address and
    permissions, or the defaults (the empty address, the wildcard
    permission) where none is given, and the value the binding delivered;
    the store was asked to create with that same address and those same
    permissions. *)
Theorem Create_keeps_options (opts : OrbitFSOptions) (first : JsVal) :
  Create opts (BindCalls first) user_cb_instance
  = let a := match opt_address opts with Some a => a | None => "" end in
    let p := match opt_permissions opts with Some l => l | None => ["*"] end in
    [StoreCreate a p; Cb (ErrVal JsNull) (RInstance (mkOrbitFS a p first))].
Proof.
  rewrite ConstructFacts.Create_calls, new_OrbitFS_fields. reflexivity.
Qed.


(** X20: [OrbitFS.Factory], and the [OrbitFSFactory] that calls it, report
    under the name [OrbitFS] a list of exactly one instance with the
    default address and permissions, whatever the binding delivered; they
    report nothing when the binding throws. *)
Theorem Factory_reports_one_instance (o : BindOutcome) (cb : FactoryCallback) :
  OrbitFSFactory o cb = Factory o cb /\
  Factory o cb
  = StoreCreateDefault ::
    match o with
    | BindCalls first => cb "OrbitFS" [Some (mkOrbitFS "" ["*"] first)]
    | BindThrows _ => [Uncaught]
    end.
Proof.
  split; [reflexivity|]. destruct o; reflexivity.
Qed.


End FactoryFacts.
